(** * Order lifecycle and pricing of the GameShop Nepal storefront

    A shallow embedding of the checkout pricing ([CheckoutPage]), the
    promo-code validator, the order-status update and payment-proof
    endpoints, the admin status dialog ([AdminOrders]) and the payment page
    ([PaymentPage]).  Amounts are exact rationals [Q]. *)

From stdpp Require Import base gmap list.
From Stdlib Require Import QArith Qminmax String Ascii ZArith Lia Lqa Sorted Permutation.

Open Scope Q_scope.

(* ------------------------------------------------------------------ *)
(** ** Cart and pricing ([CheckoutPage]) *)

Record cart_item := {
  product_name : string;
  variation_name : string;
  price : Q;          (* item.variation.price *)
  quantity : Z        (* item.quantity *)
}.

(** Modelled from the spec: [getCartTotal] of the [Cart] component (not in
    the sources), the sum of [unit_price * quantity] over the line items. *)
Definition getCartTotal (cart : list cart_item) : Q :=
  fold_left (fun acc item => acc + price item * inject_Z (quantity item)) cart 0.

(** The validator's answer kept in [promoDiscount]. *)
Record promo_discount := {
  pd_code : string;
  discount_amount : Q
}.

(** [pricingSettings], after [parseFloat(..) || 0]. *)
Record pricing_settings := {
  service_charge : Q;
  tax_percentage : Q
}.

Record breakdown := {
  subtotal : Q;
  discountAmount : Q;
  afterDiscount : Q;
  serviceCharge : Q;
  taxAmount : Q;
  total : Q
}.

(** The render-time computation of [CheckoutPage]:
    [discountAmount = promoDiscount?.discount_amount || 0],
    [afterDiscount = subtotal - discountAmount],
    [taxAmount = afterDiscount * (taxPercentage / 100)],
    [total = afterDiscount + serviceCharge + taxAmount]. *)
Definition checkout_pricing (cart : list cart_item)
    (promoDiscount : option promo_discount) (settings : pricing_settings)
    : breakdown :=
  let sub := getCartTotal cart in
  let disc := match promoDiscount with
              | Some p => discount_amount p
              | None => 0
              end in
  let after := sub - disc in
  let sc := service_charge settings in
  let tp := tax_percentage settings in
  let tax := after * (tp / 100) in
  {| subtotal := sub;
     discountAmount := disc;
     afterDiscount := after;
     serviceCharge := sc;
     taxAmount := tax;
     total := after + sc + tax |}.

Definition item (n : string) (p : Q) (q : Z) : cart_item :=
  {| product_name := n; variation_name := "default"; price := p; quantity := q |}.

(* ------------------------------------------------------------------ *)
(** ** Error kinds *)

Inductive error_kind :=
  | InvalidCart | CodeNotFound | CodeExpired | UsageLimitReached
  | MinimumNotMet | OrderNotFound | InvalidTransition | InvalidState.

(* ------------------------------------------------------------------ *)
(** ** Promo codes *)

Inductive discount_type := Percentage | Fixed.

Record promo_code := {
  code : string;
  dtype : discount_type;
  discount_value : Q;
  min_order_amount : option Q;
  max_discount : option Q;
  expires_at : option Z;
  usage_limit : option nat;
  used_count : nat;
  is_active : bool
}.

Definition ascii_upper (c : ascii) : ascii :=
  let n := nat_of_ascii c in
  if (97 <=? n)%nat && (n <=? 122)%nat then ascii_of_nat (n - 32) else c.

Definition is_space (c : ascii) : bool :=
  existsb (Nat.eqb (nat_of_ascii c)) [9; 10; 13; 32]%nat.

Fixpoint drop_spaces (l : list ascii) : list ascii :=
  match l with
  | c :: l' => if is_space c then drop_spaces l' else l
  | [] => []
  end.

(** [code.trim().toUpperCase()] *)
Definition normalize_code (c : string) : string :=
  let l := list_ascii_of_string c in
  let l := rev (drop_spaces (rev (drop_spaces l))) in
  string_of_list_ascii (List.map ascii_upper l).

(** Modelled from the spec: the backend promo-code lookup (not in the
    sources): the first active code matching case-insensitively. *)
Definition find_promo (codes : list promo_code) (c : string) : option promo_code :=
  List.find (fun p => is_active p &&
               String.eqb (normalize_code (code p)) (normalize_code c)) codes.

(** Modelled from the spec: the backend discount computation (not in the
    sources).  Percentage: [subtotal * (value / 100)], capped at the
    maximum discount when one is set; fixed: [min(value, subtotal)]. *)
Definition compute_discount (p : promo_code) (sub : Q) : Q :=
  match dtype p with
  | Percentage =>
      let d := sub * (discount_value p / 100) in
      match max_discount p with
      | Some m => Qmin d m
      | None => d
      end
  | Fixed => Qmin (discount_value p) sub
  end.

(** Modelled from the spec: the backend validator behind
    [promoCodesAPI.validate(code, subtotal)] (not in the sources), with its
    checks in order: not found, expired, usage limit, minimum subtotal. *)
Definition validate_promo (codes : list promo_code) (c : string) (nowz : Z)
    (sub : Q) : error_kind + promo_discount :=
  match find_promo codes c with
  | None => inl CodeNotFound
  | Some p =>
      if match expires_at p with Some e => Z.ltb e nowz | None => false end
      then inl CodeExpired
      else if match usage_limit p with
              | Some l => (l <=? used_count p)%nat
              | None => false end
      then inl UsageLimitReached
      else if match min_order_amount p with
              | Some m => negb (Qle_bool m sub)
              | None => false end
      then inl MinimumNotMet
      else inr {| pd_code := normalize_code c;
                  discount_amount := compute_discount p sub |}
  end.

Definition SAVE10 : promo_code :=
  {| code := "SAVE10"; dtype := Percentage; discount_value := 10;
     min_order_amount := None; max_discount := Some 80; expires_at := None;
     usage_limit := None; used_count := 0; is_active := true |}.

(* ------------------------------------------------------------------ *)
(** ** Orders and their status (backend endpoints) *)

(** [STATUS_OPTIONS] of [AdminOrders]. *)
Inductive status := Pending | Confirmed | Completed | Cancelled.

Definition status_value (st : status) : string :=
  match st with
  | Pending => "pending"
  | Confirmed => "confirmed"
  | Completed => "completed"
  | Cancelled => "cancelled"
  end.

Definition STATUS_OPTIONS : list status := [Pending; Confirmed; Completed; Cancelled].

Definition status_eqb (a b : status) : bool :=
  match a, b with
  | Pending, Pending | Confirmed, Confirmed
  | Completed, Completed | Cancelled, Cancelled => true
  | _, _ => false
  end.

Lemma status_eqb_eq a b : status_eqb a b = true <-> a = b.
Proof. destruct a, b; simpl; split; congruence. Qed.

Record history_entry := {
  old_status : status;
  new_status : status;
  note : option string;
  entry_at : nat
}.

Record order := {
  customer_name : string;
  customer_phone : string;
  total_amount : Q;
  order_remark : option string;
  created_at : nat;
  o_status : status;
  status_history : list history_entry;
  payment_screenshot : option string;
  payment_method : option string
}.

Record store := {
  orders : gmap nat order;
  next_id : nat;
  clock : nat
}.

Definition with_status (o : order) (st : status) (h : list history_entry) : order :=
  {| customer_name := customer_name o; customer_phone := customer_phone o;
     total_amount := total_amount o; order_remark := order_remark o;
     created_at := created_at o; o_status := st; status_history := h;
     payment_screenshot := payment_screenshot o;
     payment_method := payment_method o |}.

Definition with_payment (o : order) (url : string) (m : option string) : order :=
  {| customer_name := customer_name o; customer_phone := customer_phone o;
     total_amount := total_amount o; order_remark := order_remark o;
     created_at := created_at o; o_status := o_status o;
     status_history := status_history o;
     payment_screenshot := Some url; payment_method := m |}.

Definition put_orders (s : store) (m : gmap nat order) : store :=
  {| orders := m; next_id := next_id s; clock := clock s |}.

(** Modelled from the spec: the backend order creation behind
    [ordersAPI.create] (not in the sources): a generated identifier, status
    [pending], an empty history. *)
Definition create_order (s : store) (name phone : string) (tot : Q)
    (rem : option string) : store :=
  let o := {| customer_name := name; customer_phone := phone;
              total_amount := tot; order_remark := rem;
              created_at := clock s; o_status := Pending;
              status_history := []; payment_screenshot := None;
              payment_method := None |} in
  {| orders := <[next_id s := o]> (orders s); next_id := S (next_id s);
     clock := clock s |}.

(** Modelled from the spec: the backend status update behind
    [orderTrackingAPI.updateStatus(id, {status, note})] (not in the
    sources).  As the spec's design notes record, the source enforces no
    transition graph (the admin dialog offers every status from every
    status): an unknown identifier fails with [OrderNotFound]; otherwise
    the status is set and one history entry (old, new, note, time) is
    appended in the same write. *)
Definition update_status (s : store) (id : nat) (st : status)
    (n : option string) : error_kind + store :=
  match orders s !! id with
  | None => inl OrderNotFound
  | Some o =>
      let e := {| old_status := o_status o; new_status := st; note := n;
                  entry_at := clock s |} in
      inr (put_orders s (<[id := with_status o st (status_history o ++ [e])]> (orders s)))
  end.

(** Modelled from the spec: the backend payment-proof endpoint behind
    [ordersAPI.uploadPaymentScreenshot(id, url, method)] (not in the
    sources): only while [pending], else [InvalidState]; it records the
    asset reference and the method name and keeps the status. *)
Definition attachPaymentProof (s : store) (id : nat) (url : string)
    (m : option string) : error_kind + store :=
  match orders s !! id with
  | None => inl OrderNotFound
  | Some o =>
      match o_status o with
      | Pending => inr (put_orders s (<[id := with_payment o url m]> (orders s)))
      | _ => inl InvalidState
      end
  end.

(** The requests the order subsystem receives, and the passing of time. *)
Inductive op :=
  | OpCreate (name phone : string) (tot : Q) (rem : option string)
  | OpUpdate (id : nat) (st : status) (n : option string)
  | OpAttach (id : nat) (url : string) (m : option string)
  | OpTick (d : nat).

Definition run_op (s : store) (o : op) : error_kind + store :=
  match o with
  | OpCreate name phone tot rem => inr (create_order s name phone tot rem)
  | OpUpdate id st n => update_status s id st n
  | OpAttach id url m => attachPaymentProof s id url m
  | OpTick d => inr {| orders := orders s; next_id := next_id s;
                       clock := clock s + d |}
  end.

(** A rejected request leaves the store as it was. *)
Definition step (s : store) (o : op) : store :=
  match run_op s o with
  | inl _ => s
  | inr s' => s'
  end.

Fixpoint exec (s : store) (ops : list op) : store :=
  match ops with
  | [] => s
  | o :: ops' => exec (step s o) ops'
  end.

Definition init_store : store := {| orders := ∅; next_id := 0; clock := 0 |}.

(** The history of an order read from the initial status: [Some] of the
    status it ends in when each entry starts where the previous one ended. *)
Fixpoint chain (st : status) (h : list history_entry) : option status :=
  match h with
  | [] => Some st
  | e :: h' => if status_eqb (old_status e) st then chain (new_status e) h' else None
  end.

Fixpoint nondecreasing (l : list nat) : Prop :=
  match l with
  | x :: ((y :: _) as t) => (x <= y)%nat /\ nondecreasing t
  | _ => True
  end.

Definition history_ok (now : nat) (o : order) : Prop :=
  chain Pending (status_history o) = Some (o_status o) /\
  nondecreasing (map entry_at (status_history o)) /\
  Forall (fun e => (entry_at e <= now)%nat) (status_history o).

(* ------------------------------------------------------------------ *)
(** ** The admin status dialog ([AdminOrders]) *)

(** An order as the admin page holds it; [status] may be missing
    ([undefined]) in the fetched JSON. *)
Record ui_order := {
  uo_id : string;
  uo_status : option string
}.

Record dialog := {
  isStatusDialogOpen : bool;
  selectedOrder : option ui_order;
  newStatus : string;
  statusNote : string;
  isUpdating : bool
}.

(** The body of [orderTrackingAPI.updateStatus(id, {status, note})]. *)
Record status_request := {
  req_id : string;
  req_status : string;
  req_note : option string
}.

Inductive dialog_event :=
  | OpenDialog (o : ui_order)      (* openStatusDialog(order) *)
  | SelectStatus (st : status)     (* Select onValueChange over STATUS_OPTIONS *)
  | EditNote (t : string)          (* Textarea onChange *)
  | CloseDialog                    (* Cancel button / onOpenChange(false) *)
  | ClickConfirm (ok : bool).      (* the Update Status button; [ok]: the request succeeded *)

(** [selectedOrder?.status] *)
Definition selected_status (d : dialog) : option string :=
  match selectedOrder d with
  | Some o => uo_status o
  | None => None
  end.

(** [disabled={isUpdating || newStatus === selectedOrder?.status}] *)
Definition confirm_disabled (d : dialog) : bool :=
  isUpdating d ||
  match selected_status d with
  | Some s => String.eqb (newStatus d) s
  | None => false
  end.

(** [openStatusDialog]: [setNewStatus(order.status || 'pending')]. *)
Definition openStatusDialog (d : dialog) (o : ui_order) : dialog :=
  {| isStatusDialogOpen := true; selectedOrder := Some o;
     newStatus := match uo_status o with
                  | Some s => if String.eqb s "" then "pending" else s
                  | None => "pending"
                  end;
     statusNote := ""; isUpdating := isUpdating d |}.

(** [handleStatusUpdate]: returns the request it sends, if any, and the
    dialog afterwards (closed when the request succeeded). *)
Definition handleStatusUpdate (d : dialog) (ok : bool) : option status_request * dialog :=
  match selectedOrder d with
  | None => (None, d)
  | Some o =>
      if String.eqb (newStatus d) "" then (None, d) else
      let r := {| req_id := uo_id o; req_status := newStatus d;
                  req_note := if String.eqb (statusNote d) "" then None
                              else Some (statusNote d) |} in
      (Some r, {| isStatusDialogOpen := negb ok && isStatusDialogOpen d;
                  selectedOrder := selectedOrder d; newStatus := newStatus d;
                  statusNote := statusNote d; isUpdating := false |})
  end.

(** One UI event: the requests sent, each with the order the dialog was
    showing when it was sent. *)
Definition dialog_step (d : dialog) (ev : dialog_event)
    : list (ui_order * status_request) * dialog :=
  match ev with
  | OpenDialog o => ([], openStatusDialog d o)
  | SelectStatus st =>
      ([], {| isStatusDialogOpen := isStatusDialogOpen d; selectedOrder := selectedOrder d;
              newStatus := status_value st; statusNote := statusNote d;
              isUpdating := isUpdating d |})
  | EditNote t =>
      ([], {| isStatusDialogOpen := isStatusDialogOpen d; selectedOrder := selectedOrder d;
              newStatus := newStatus d; statusNote := t; isUpdating := isUpdating d |})
  | CloseDialog =>
      ([], {| isStatusDialogOpen := false; selectedOrder := selectedOrder d;
              newStatus := newStatus d; statusNote := statusNote d;
              isUpdating := isUpdating d |})
  | ClickConfirm ok =>
      (* a disabled button, or a closed dialog, delivers no click *)
      if isStatusDialogOpen d && negb (confirm_disabled d) then
        let '(r, d') := handleStatusUpdate d ok in
        (match r, selectedOrder d with
         | Some r, Some o => [(o, r)]
         | _, _ => []
         end, d')
      else ([], d)
  end.

Fixpoint run_dialog (d : dialog) (evs : list dialog_event) : list (ui_order * status_request) :=
  match evs with
  | [] => []
  | ev :: evs' => let '(sent, d') := dialog_step d ev in sent ++ run_dialog d' evs'
  end.

Definition dialog0 : dialog :=
  {| isStatusDialogOpen := false; selectedOrder := None; newStatus := "";
     statusNote := ""; isUpdating := false |}.

(* ------------------------------------------------------------------ *)
(** ** The payment page ([PaymentPage]) *)

Record file := {
  file_name : string;
  file_size : Z        (* bytes *)
}.

Record payment_page := {
  screenshot : option file;
  selectedMethod : option string;   (* selectedMethod?.name *)
  isSubmitting : bool
}.

(** The body of [ordersAPI.uploadPaymentScreenshot(orderId, url, method)],
    with the file the page had selected. *)
Record proof_call := {
  call_order : string;
  call_url : string;
  call_method : option string;
  call_file : file
}.

Inductive page_event :=
  | ChooseFile (f : option file)   (* e.target.files[0] *)
  | SelectMethod (name : string)   (* handleSelectMethod *)
  | ClickProcess.                  (* the "I have paid" button *)

(** [handleScreenshotChange] *)
Definition handleScreenshotChange (p : payment_page) (f : option file) : payment_page :=
  match f with
  | None => p
  | Some f =>
      if Z.gtb (file_size f) (10 * 1024 * 1024) then p   (* toast: exceeds 10MB *)
      else {| screenshot := Some f; selectedMethod := selectedMethod p;
              isSubmitting := isSubmitting p |}
  end.

Section PaymentPage.

(** The upload endpoint: [Some url] is [uploadRes.data.url], [None] a
    failed request (the [catch] branch). *)
Variable uploadImage : file -> option string.
Variable orderId : string.

(** [handleProcessOrder] *)
Definition handleProcessOrder (p : payment_page) : option proof_call :=
  match screenshot p with
  | None => None                                   (* toast: upload screenshot *)
  | Some f =>
      match uploadImage f with
      | None => None
      | Some url => Some {| call_order := orderId; call_url := url;
                            call_method := selectedMethod p; call_file := f |}
      end
  end.

Definition page_step (p : payment_page) (ev : page_event) : list proof_call * payment_page :=
  match ev with
  | ChooseFile f => ([], handleScreenshotChange p f)
  | SelectMethod n =>
      ([], {| screenshot := screenshot p; selectedMethod := Some n;
              isSubmitting := isSubmitting p |})
  | ClickProcess =>
      (* disabled={!screenshot || isSubmitting} *)
      if negb (isSubmitting p) && bool_decide (is_Some (screenshot p)) then
        (match handleProcessOrder p with Some c => [c] | None => [] end, p)
      else ([], p)
  end.

Fixpoint run_page (p : payment_page) (evs : list page_event) : list proof_call :=
  match evs with
  | [] => []
  | ev :: evs' => let '(calls, p') := page_step p ev in calls ++ run_page p' evs'
  end.

End PaymentPage.

Definition page0 : payment_page :=
  {| screenshot := None; selectedMethod := None; isSubmitting := false |}.

(** Modelled from the spec: the asset-storage upload endpoint ([POST
    /upload], not in the sources) "accepts an uploaded image and returns a
    stable reference URL": every successful upload answers a non-empty URL. *)
Definition asset_storage_contract (uploadImage : file -> option string) : Prop :=
  forall f url, uploadImage f = Some url -> url <> ""%string.

(* ------------------------------------------------------------------ *)
(** ** JavaScript string helpers (ASCII) *)

(** [String.prototype.toLowerCase] on ASCII letters. *)
Definition ascii_lower (c : ascii) : ascii :=
  let n := nat_of_ascii c in
  if (65 <=? n)%nat && (n <=? 90)%nat then ascii_of_nat (n + 32) else c.

Definition js_lower (s : string) : string :=
  string_of_list_ascii (List.map ascii_lower (list_ascii_of_string s)).

Fixpoint str_prefix (p s : string) : bool :=
  match p, s with
  | EmptyString, _ => true
  | String a p', String b s' => Ascii.eqb a b && str_prefix p' s'
  | _, _ => false
  end.

(** [s.includes(p)] *)
Fixpoint includes (s p : string) : bool :=
  str_prefix p s ||
  match s with
  | EmptyString => false
  | String _ s' => includes s' p
  end.

(** The ASCII white space removed by [String.prototype.trim]. *)
Definition is_js_space (c : ascii) : bool :=
  existsb (Nat.eqb (nat_of_ascii c)) [9; 10; 11; 12; 13; 32]%nat.

Fixpoint drop_js_spaces (l : list ascii) : list ascii :=
  match l with
  | c :: l' => if is_js_space c then drop_js_spaces l' else l
  | [] => []
  end.

(** [s.trim()] *)
Definition js_trim (s : string) : string :=
  string_of_list_ascii
    (rev (drop_js_spaces (rev (drop_js_spaces (list_ascii_of_string s))))).

(* ------------------------------------------------------------------ *)
(** ** The admin order list ([AdminOrders]) *)

(** An order as [ordersAPI.getAll] returns it to the admin page; optional
    fields may be missing, [takeapp_order_number] is kept as its
    [toString()], and [created_at] as the time [new Date(..)] parses. *)
Record admin_order := {
  ao_id : string;
  ao_customer_name : option string;
  ao_customer_email : option string;
  ao_customer_phone : option string;
  ao_takeapp_number : option string;
  ao_items_text : option string;
  ao_status : option string;
  ao_created_at : Z
}.

Definition opt_includes (f : string -> string) (v : option string) (search : string) : bool :=
  match v with
  | Some x => includes (f x) search
  | None => false
  end.

(** The search predicate of the filter effect; [search] is already
    lower-cased. *)
Definition matches_search (search : string) (o : admin_order) : bool :=
  opt_includes js_lower (ao_customer_name o) search ||
  opt_includes js_lower (ao_customer_email o) search ||
  opt_includes id (ao_customer_phone o) search ||
  includes (js_lower (ao_id o)) search ||
  opt_includes id (ao_takeapp_number o) search ||
  opt_includes js_lower (ao_items_text o) search.

(** [order.status === statusFilter] *)
Definition status_is (v : string) (o : admin_order) : bool :=
  match ao_status o with
  | Some s => String.eqb s v
  | None => false
  end.

(** The filter effect: [filteredOrders] from [orders], [searchTerm] and
    [statusFilter]. *)
Definition filter_orders (os : list admin_order) (searchTerm statusFilter : string)
    : list admin_order :=
  let f1 := if String.eqb searchTerm "" then os
            else List.filter (matches_search (js_lower searchTerm)) os in
  if String.eqb statusFilter "all" then f1 else List.filter (status_is statusFilter) f1.

(** [stats]: one [orders.filter(o => o.status === v).length] per status. *)
Definition stat_count (os : list admin_order) (st : status) : nat :=
  List.length (List.filter (status_is (status_value st)) os).

(** [getStatusBadge]: [STATUS_OPTIONS.find(s => s.value === status) ||
    STATUS_OPTIONS[0]]. *)
Definition status_badge (v : option string) : status :=
  match v with
  | Some x =>
      match List.find (fun st => String.eqb (status_value st) x) STATUS_OPTIONS with
      | Some st => st
      | None => Pending
      end
  | None => Pending
  end.

Definition known_status (o : admin_order) : bool :=
  match ao_status o with
  | Some x => existsb (fun st => String.eqb (status_value st) x) STATUS_OPTIONS
  | None => false
  end.

(** [response.data.sort((a, b) => new Date(b.created_at) - new Date(a.created_at))]:
    [Array.prototype.sort] is stable, so the result is the stable sort by
    [created_at], newest first; each order goes before the first one that
    is not newer than it. *)
Fixpoint insert_desc (x : admin_order) (l : list admin_order) : list admin_order :=
  match l with
  | [] => [x]
  | y :: l' => if Z.leb (ao_created_at y) (ao_created_at x) then x :: l
               else y :: insert_desc x l'
  end.

Definition sort_orders (os : list admin_order) : list admin_order :=
  fold_right insert_desc [] os.

(* ------------------------------------------------------------------ *)
(** ** Order submission and promo handling ([CheckoutPage]) *)

Record order_form := {
  form_name : string;
  form_phone : string;
  form_email : string;
  form_remark : string
}.

Record payload_item := {
  pi_name : string;
  pi_price : Q;
  pi_quantity : Z;
  pi_variation : string
}.

(** [orderPayload] *)
Record order_payload := {
  pl_customer_name : string;
  pl_customer_phone : string;
  pl_customer_email : option string;
  pl_items : list payload_item;
  pl_total_amount : Q;
  pl_remark : option string
}.

Definition newline : string := String (ascii_of_nat 10) EmptyString.

Section Checkout.

(** The JavaScript rendering of a number inside a template literal. *)
Variable show_amount : Q -> string.

(** [fullRemark], then [fullRemark.trim() || null]. *)
Definition build_remark (promoDiscount : option promo_discount) (notes : string)
    : option string :=
  let r1 := match promoDiscount with
            | Some p => String.append "Promo Code: " (String.append (pd_code p)
                          (String.append " (-Rs " (String.append (show_amount (discount_amount p))
                          (String.append ")" newline))))
            | None => ""%string
            end in
  let r2 := if String.eqb notes "" then r1
            else String.append r1 (String.append "Notes: " notes) in
  let t := js_trim r2 in
  if String.eqb t "" then None else Some t.

(** [handleSubmitOrder]: the payload sent to [ordersAPI.create], if any. *)
Definition handleSubmitOrder (isSubmitting : bool) (cart : list cart_item)
    (form : order_form) (promoDiscount : option promo_discount)
    (settings : pricing_settings) : option order_payload :=
  if isSubmitting || Nat.eqb (List.length cart) 0 then None
  else if String.eqb (form_name form) "" || String.eqb (form_phone form) "" then None
  else Some {| pl_customer_name := form_name form;
               pl_customer_phone := form_phone form;
               pl_customer_email := if String.eqb (form_email form) "" then None
                                    else Some (form_email form);
               pl_items := List.map (fun it => {| pi_name := product_name it;
                                                  pi_price := price it;
                                                  pi_quantity := quantity it;
                                                  pi_variation := variation_name it |}) cart;
               pl_total_amount := total (checkout_pricing cart promoDiscount settings);
               pl_remark := build_remark promoDiscount (form_remark form) |}.

End Checkout.

(** [handleApplyPromo]: the validation request sent, if any, and the new
    [promoDiscount]; [validate] answers [None] when the request fails. *)
Definition handleApplyPromo (validate : string -> Q -> option promo_discount)
    (promoCode : string) (sub : Q) (promoDiscount : option promo_discount)
    : option (string * Q) * option promo_discount :=
  if String.eqb (js_trim promoCode) "" then (None, promoDiscount)
  else (Some (js_trim promoCode, sub), validate (js_trim promoCode) sub).

(** [handleRemovePromo] *)
Definition handleRemovePromo : string * option promo_discount := (""%string, None).

(* ------------------------------------------------------------------ *)
(** ** Lowest displayed price ([ProductCard]) *)

(** [product.variations?.length > 0 ? Math.min(...prices) : 0] *)
Definition lowestPrice (variations : option (list Q)) : Q :=
  match variations with
  | Some (p :: ps) => fold_left Qmin ps p
  | _ => 0
  end.

(* ------------------------------------------------------------------ *)
(** ** Profile editing ([CustomerAccountPage]) *)

Record customer := {
  c_name : option string;
  c_phone : option string
}.

(** [editForm] *)
Record edit_form := {
  ef_name : string;
  ef_phone : string
}.

(** [x || ''] on an optional string *)
Definition or_empty (o : option string) : string :=
  match o with Some s => s | None => ""%string end.

Definition handleEditProfile (c : customer) : edit_form :=
  {| ef_name := or_empty (c_name c); ef_phone := or_empty (c_phone c) |}.

Definition handleCancelEdit : edit_form := {| ef_name := ""; ef_phone := "" |}.

(** [handleSaveProfile]: the [params] of the profile request, if one is sent. *)
Definition handleSaveProfile (ef : edit_form) : option (string * option string) :=
  if String.eqb (js_trim (ef_name ef)) "" then None
  else Some (js_trim (ef_name ef),
             let p := js_trim (ef_phone ef) in
             if String.eqb p "" then None else Some p).

Definition newer_or_same (a b : admin_order) : Prop := (ao_created_at b <= ao_created_at a)%Z.

Definition b2n (b : bool) : nat := if b then 1%nat else 0%nat.

(* ------------------------------------------------------------------ *)
(** ** The two steps of [PaymentPage] *)

(** [step] ('methods' | 'details'), and the page left by [navigate(-1)]. *)
Inductive pay_step := Methods | Details | LeftPage.

Record page_view := {
  vstep : pay_step;
  vpage : payment_page
}.

Inductive view_event :=
  | VSelect (name : string)          (* a method button of the 'methods' list *)
  | VBack                            (* handleBack *)
  | VChoose (f : option file)        (* the file input of the details view *)
  | VProcess.                        (* the process button of the details view *)

(** [step === 'details' && selectedMethod] *)
Definition details_shown (v : page_view) : bool :=
  match vstep v with Details => bool_decide (is_Some (selectedMethod (vpage v))) | _ => false end.

Section PaymentView.
Variable uploadImage : file -> option string.
Variable orderId : string.

Definition view_step (v : page_view) (ev : view_event) : list proof_call * page_view :=
  match ev with
  | VSelect n =>
      match vstep v with
      | Methods =>
          let '(calls, p') := page_step uploadImage orderId (vpage v) (SelectMethod n) in
          (calls, {| vstep := Details; vpage := p' |})
      | _ => ([], v)
      end
  | VBack =>
      match vstep v with
      | Details =>
          ([], {| vstep := Methods;
                  vpage := {| screenshot := screenshot (vpage v); selectedMethod := None;
                              isSubmitting := isSubmitting (vpage v) |} |})
      | Methods => ([], {| vstep := LeftPage; vpage := vpage v |})
      | LeftPage => ([], v)
      end
  | VChoose f =>
      if details_shown v then
        let '(calls, p') := page_step uploadImage orderId (vpage v) (ChooseFile f) in
        (calls, {| vstep := vstep v; vpage := p' |})
      else ([], v)
  | VProcess =>
      if details_shown v then
        let '(calls, p') := page_step uploadImage orderId (vpage v) ClickProcess in
        (calls, {| vstep := vstep v; vpage := p' |})
      else ([], v)
  end.

Fixpoint run_view (v : page_view) (evs : list view_event) : list proof_call :=
  match evs with
  | [] => []
  | ev :: evs' => let '(calls, v') := view_step v ev in calls ++ run_view v' evs'
  end.

End PaymentView.

Definition view0 : page_view := {| vstep := Methods; vpage := page0 |}.

(** [toggleExpand]: the id of the expanded order row, if any. *)
Definition toggleExpand (expandedOrderId : option string) (orderId : string) : option string :=
  match expandedOrderId with
  | Some e => if String.eqb e orderId then None else Some orderId
  | None => Some orderId
  end.

Definition demo_admin_order (id name st : string) (at_ : Z) : admin_order :=
  {| ao_id := id; ao_customer_name := Some name; ao_customer_email := None;
     ao_customer_phone := Some "98000"%string; ao_takeapp_number := None;
     ao_items_text := None; ao_status := Some st; ao_created_at := at_ |}.

Definition demo_admin_orders : list admin_order :=
  [demo_admin_order "a1" "Sita Rai" "completed" 3;
   demo_admin_order "a2" "Sita K" "pending" 2;
   demo_admin_order "a3" "Ram" "completed" 1].

(* ==================================================================== *)
(** * Properties *)

Example pricing_example :
  total (checkout_pricing [item "A" 100 2; item "B" 50 1]
           (Some {| pd_code := "X"; discount_amount := 50 |})
           {| service_charge := 10; tax_percentage := 13 |}) == 236.
Proof. reflexivity. Qed.

Example save10_example :
  validate_promo [SAVE10] " save10 " 0 1000
  = inr {| pd_code := "SAVE10"; discount_amount := Qmin (1000 * (10 / 100)) 80 |}.
Proof. reflexivity. Qed.

(* ------------------------------------------------------------------ *)
(** ** Pricing *)

(** The input on which a discount exceeds the subtotal: a fixed code of 150
    applied to a cart of 100 (a code validated as [min(150, 300)] on a cart
    of 300 keeps its amount after an item is removed). *)
Definition over_discount_cart : list cart_item := [item "A" 100 1].
Definition over_discount : option promo_discount :=
  Some {| pd_code := "FLAT150"; discount_amount := 150 |}.

Lemma after_discount_nonneg cart pd settings :
  let b := checkout_pricing cart pd settings in
  discountAmount b <= subtotal b -> 0 <= afterDiscount b.
Proof.
  simpl. intros H.
  apply (Qplus_le_l _ _ (match pd with Some p => discount_amount p | None => 0 end)).
  ring_simplify. exact H.
Qed.

(** C1 (counterexample): the post-discount amount is not clamped at zero;
    with a discount of 150 on a subtotal of 100 it is -50, not
    [max(100 - 150, 0) = 0]. *)
Lemma C1_after_discount_negative :
  let b := checkout_pricing over_discount_cart over_discount
             {| service_charge := 0; tax_percentage := 0 |} in
  afterDiscount b == -50 /\ afterDiscount b < 0 /\
  ~ (afterDiscount b == Qmax (subtotal b - discountAmount b) 0).
Proof. vm_compute. split; [reflexivity | split; [reflexivity | discriminate]]. Qed.

(** C1 (amended): the checkout computes, in order, [subtotal] as the sum of
    [price * quantity], [afterDiscount = subtotal - discountAmount] (not
    clamped), [taxAmount = afterDiscount * (tax_percentage / 100)] and
    [total = afterDiscount + serviceCharge + taxAmount]; the post-discount
    amount is non-negative whenever the discount does not exceed the
    subtotal. *)
Lemma C1_pricing_order cart pd settings :
  let b := checkout_pricing cart pd settings in
  subtotal b = getCartTotal cart /\
  afterDiscount b = subtotal b - discountAmount b /\
  taxAmount b = afterDiscount b * (tax_percentage settings / 100) /\
  total b = afterDiscount b + service_charge settings + taxAmount b /\
  (discountAmount b <= subtotal b -> 0 <= afterDiscount b).
Proof.
  simpl. repeat split. exact (after_discount_nonneg cart pd settings).
Qed.

Lemma C1_pricing_order_witness :
  0 <= afterDiscount (checkout_pricing over_discount_cart
         (Some {| pd_code := "FLAT1"; discount_amount := 1 |})
         {| service_charge := 0; tax_percentage := 13 |}).
Proof.
  apply (C1_pricing_order over_discount_cart
           (Some {| pd_code := "FLAT1"; discount_amount := 1 |})
           {| service_charge := 0; tax_percentage := 13 |}).
  vm_compute. discriminate.
Defined.

(** C2 (counterexample): for the non-empty cart [100 x 1] with a discount
    of 150 and a service charge of 10, the total is -40, below the service
    charge. *)
Lemma C2_total_below_service_charge :
  let b := checkout_pricing over_discount_cart over_discount
             {| service_charge := 10; tax_percentage := 13 |} in
  total b == -40 - 65 / 10 /\ ~ (serviceCharge b <= total b).
Proof. vm_compute. split; [reflexivity | intros H; apply H; reflexivity]. Qed.

(** C2 (amended): for every cart, discount and settings the total is
    [subtotal - discount + serviceCharge + taxAmount]; it is at least the
    service charge whenever the discount does not exceed the subtotal and
    the tax percentage is non-negative. *)
Lemma C2_total_identity cart pd settings :
  let b := checkout_pricing cart pd settings in
  total b == subtotal b - discountAmount b + serviceCharge b + taxAmount b /\
  (discountAmount b <= subtotal b -> 0 <= tax_percentage settings ->
   serviceCharge b <= total b).
Proof.
  intros b. split.
  - subst b. simpl. reflexivity.
  - intros Hd Ht.
    pose proof (after_discount_nonneg cart pd settings Hd) as Ha.
    subst b. simpl in *.
    set (a := getCartTotal cart - _) in *.
    assert (0 <= a * (tax_percentage settings / 100)).
    { apply Qmult_le_0_compat; [exact Ha |].
      apply Qmult_le_0_compat; [exact Ht | discriminate]. }
    lra.
Qed.

Lemma C2_total_identity_witness :
  service_charge {| service_charge := 10; tax_percentage := 13 |} <=
  total (checkout_pricing [item "A" 100 2; item "B" 50 1]
           (Some {| pd_code := "X"; discount_amount := 50 |})
           {| service_charge := 10; tax_percentage := 13 |}).
Proof.
  apply (C2_total_identity [item "A" 100 2; item "B" 50 1]
           (Some {| pd_code := "X"; discount_amount := 50 |})
           {| service_charge := 10; tax_percentage := 13 |});
    vm_compute; discriminate.
Defined.

(* ------------------------------------------------------------------ *)
(** ** Promo discounts *)

Lemma validate_promo_found codes c nowz sub r :
  validate_promo codes c nowz sub = inr r ->
  exists p, find_promo codes c = Some p /\ discount_amount r = compute_discount p sub.
Proof.
  unfold validate_promo. destruct (find_promo codes c) as [p|]; [|discriminate].
  repeat match goal with
         | |- context [if ?b then _ else _] => destruct b
         end; try discriminate.
  intros H. injection H as <-. eauto.
Qed.

(** C3: for a redeemable code, a percentage code gives
    [subtotal * (value / 100)], capped at the maximum discount when one is
    set (and never above it); a fixed code gives [min(value, subtotal)]
    (never above the subtotal).  With [SAVE10] (10%, cap 80) on a subtotal
    of 1000, service charge 0 and tax 13%: discount 80, tax 119.6, total
    1039.6. *)
Lemma C3_promo_discount :
  (forall codes c nowz sub r,
     validate_promo codes c nowz sub = inr r ->
     exists p, find_promo codes c = Some p /\
       (dtype p = Percentage ->
          (max_discount p = None -> discount_amount r = sub * (discount_value p / 100)) /\
          (forall m, max_discount p = Some m ->
             discount_amount r = Qmin (sub * (discount_value p / 100)) m /\
             discount_amount r <= m)) /\
       (dtype p = Fixed ->
          discount_amount r = Qmin (discount_value p) sub /\ discount_amount r <= sub)) /\
  (exists r, validate_promo [SAVE10] "SAVE10" 0 1000 = inr r /\
     discount_amount r == 80 /\
     let b := checkout_pricing [item "Netflix" 1000 1] (Some r)
                {| service_charge := 0; tax_percentage := 13 |} in
     discountAmount b == 80 /\ taxAmount b == 1196 # 10 /\ total b == 10396 # 10).
Proof.
  split.
  - intros codes c nowz sub r H.
    destruct (validate_promo_found codes c nowz sub r H) as [p [Hf Hd]].
    exists p. split; [exact Hf |]. rewrite Hd. unfold compute_discount.
    split; intros Ht; rewrite Ht.
    + split.
      * intros Hn. rewrite Hn. reflexivity.
      * intros m Hm. rewrite Hm. split; [reflexivity | apply Q.le_min_r].
    + split; [reflexivity | apply Q.le_min_r].
  - eexists. split; [reflexivity |]. vm_compute.
    repeat split; reflexivity.
Qed.

Definition save10_result : promo_discount :=
  {| pd_code := "SAVE10"; discount_amount := Qmin (2000 * (10 / 100)) 80 |}.

Lemma C3_promo_discount_witness :
  validate_promo [SAVE10] " save10" 0 2000 = inr save10_result /\
  discount_amount save10_result <= 80.
Proof.
  split; [reflexivity |].
  destruct (proj1 C3_promo_discount [SAVE10] " save10"%string 0%Z 2000 save10_result eq_refl)
    as [p [Hf [Hp _]]].
  simpl in Hf. injection Hf as <-.
  exact (proj2 (proj2 (Hp eq_refl) 80 eq_refl)).
Defined.

(* ------------------------------------------------------------------ *)
(** ** The admin status dialog *)

Lemma dialog_step_sent d ev o r :
  In (o, r) (fst (dialog_step d ev)) ->
  selectedOrder d = Some o /\ req_id r = uo_id o /\
  req_status r = newStatus d /\ confirm_disabled d = false.
Proof.
  destruct ev as [o'|st|t| |ok]; simpl; try tauto.
  destruct (isStatusDialogOpen d) eqn:Hopen; simpl; [|tauto].
  destruct (confirm_disabled d) eqn:Hdis; simpl; [tauto|].
  unfold handleStatusUpdate.
  destruct (selectedOrder d) as [o0|] eqn:Hsel; simpl; [|tauto].
  destruct (String.eqb (newStatus d) "") eqn:He; simpl; [tauto|].
  intros [Heq|[]]. injection Heq as <- <-. simpl. auto.
Qed.

Lemma confirm_enabled_differs d o :
  selectedOrder d = Some o -> confirm_disabled d = false ->
  uo_status o <> Some (newStatus d).
Proof.
  unfold confirm_disabled, selected_status. intros -> Hd Hs. rewrite Hs in Hd.
  rewrite String.eqb_refl, orb_true_r in Hd. discriminate.
Qed.

(** C10: every status request the admin dialog sends targets the order the
    dialog shows, and its new status differs from that order's current
    status (the confirm button is disabled when they are equal). *)
Theorem C10_no_self_transition d evs o r :
  In (o, r) (run_dialog d evs) ->
  req_id r = uo_id o /\ uo_status o <> Some (req_status r).
Proof.
  revert d. induction evs as [|ev evs IH]; intros d; simpl; [tauto|].
  destruct (dialog_step d ev) as [sent d'] eqn:Hstep.
  intros Hin. apply in_app_or in Hin as [Hin|Hin].
  - assert (Hs : In (o, r) (fst (dialog_step d ev))) by (rewrite Hstep; exact Hin).
    destruct (dialog_step_sent d ev o r Hs) as (Hsel & Hid & Hst & Hdis).
    split; [exact Hid|]. rewrite Hst. exact (confirm_enabled_differs d o Hsel Hdis).
  - exact (IH d' Hin).
Qed.

Definition completed_ui : ui_order := {| uo_id := "6f1c2a"%string; uo_status := Some "completed"%string |}.

Definition reopen_events : list dialog_event :=
  [OpenDialog completed_ui; SelectStatus Pending; EditNote "reopened"%string; ClickConfirm true].

Definition reopen_request : status_request :=
  {| req_id := "6f1c2a"%string; req_status := "pending"%string;
     req_note := Some "reopened"%string |}.

Lemma C10_no_self_transition_witness :
  In (completed_ui, reopen_request) (run_dialog dialog0 reopen_events) /\
  uo_status completed_ui <> Some (req_status reopen_request).
Proof.
  assert (H : In (completed_ui, reopen_request) (run_dialog dialog0 reopen_events))
    by (simpl; left; reflexivity).
  split; [exact H | exact (proj2 (C10_no_self_transition dialog0 reopen_events _ _ H))].
Defined.

(* ------------------------------------------------------------------ *)
(** ** Status transitions *)

Definition sample_order (st : status) : order :=
  {| customer_name := "Sita"; customer_phone := "9800000000";
     total_amount := 10396 # 10; order_remark := None; created_at := 1;
     o_status := st; status_history := []; payment_screenshot := None;
     payment_method := None |}.

Definition store_with (o : order) : store :=
  {| orders := {[0%nat := o]}; next_id := 1; clock := 5 |}.

(** C4 (counterexample): a completed order is reopened.  The admin dialog
    sends [pending] for an order whose status is [completed], and the status
    update accepts it instead of failing with [InvalidTransition]. *)
Lemma C4_terminal_reopened :
  run_dialog dialog0 reopen_events = [(completed_ui, reopen_request)] /\
  update_status (store_with (sample_order Completed)) 0 Pending (Some "reopened"%string)
    <> inl InvalidTransition /\
  exists s', update_status (store_with (sample_order Completed)) 0 Pending
               (Some "reopened"%string) = inr s' /\
             option_map o_status (orders s' !! 0%nat) = Some Pending.
Proof.
  split; [reflexivity|]. split; [vm_compute; discriminate|].
  eexists. split; [reflexivity|]. vm_compute. reflexivity.
Qed.

(** C4 (amended): no transition graph is enforced.  For a known order the
    status update accepts every target status, terminal statuses included,
    sets it and appends one history entry; it fails only for an unknown
    order, and then with [OrderNotFound].  The admin dialog offers all four
    statuses, and from every status it sends any chosen status that differs
    from the current one. *)
Theorem C4_any_status_accepted :
  (forall s id o st n, orders s !! id = Some o ->
     exists s', update_status s id st n = inr s' /\
       orders s' !! id = Some (with_status o st (status_history o ++
         [{| old_status := o_status o; new_status := st; note := n;
             entry_at := clock s |}]))) /\
  (forall s id st n e,
     update_status s id st n = inl e <-> (orders s !! id = None /\ e = OrderNotFound)) /\
  (forall st, In st STATUS_OPTIONS) /\
  (forall id cur st, cur <> st ->
     let o := {| uo_id := id; uo_status := Some (status_value cur) |} in
     run_dialog dialog0 [OpenDialog o; SelectStatus st; ClickConfirm true] =
       [(o, {| req_id := id; req_status := status_value st; req_note := None |})]).
Proof.
  split; [|split; [|split]].
  - intros s id o st n Hl. unfold update_status. rewrite Hl.
    eexists. split; [reflexivity|]. simpl. apply lookup_insert_eq.
  - intros s id st n e. unfold update_status.
    destruct (orders s !! id) as [o|]; split.
    + discriminate.
    + intros [? _]; discriminate.
    + intros [= <-]. split; reflexivity.
    + intros [_ ->]. reflexivity.
  - intros st. destruct st; simpl; tauto.
  - intros id cur st Hne. destruct cur, st; try congruence; reflexivity.
Qed.

Lemma C4_any_status_accepted_witness :
  (exists s', update_status (store_with (sample_order Cancelled)) 0%nat Confirmed None = inr s') /\
  update_status (store_with (sample_order Cancelled)) 7%nat Confirmed None = inl OrderNotFound /\
  run_dialog dialog0 [OpenDialog {| uo_id := "a1"%string; uo_status := Some "cancelled"%string |};
                      SelectStatus Confirmed; ClickConfirm true] =
    [({| uo_id := "a1"%string; uo_status := Some "cancelled"%string |},
      {| req_id := "a1"%string; req_status := "confirmed"%string; req_note := None |})].
Proof.
  split; [|split].
  - destruct (proj1 C4_any_status_accepted (store_with (sample_order Cancelled)) 0%nat
                (sample_order Cancelled) Confirmed None eq_refl) as [s' [H _]].
    exists s'. exact H.
  - apply (proj2 (proj1 (proj2 C4_any_status_accepted)
             (store_with (sample_order Cancelled)) 7%nat Confirmed None OrderNotFound)).
    split; reflexivity.
  - exact (proj2 (proj2 (proj2 C4_any_status_accepted))
             "a1"%string Cancelled Confirmed ltac:(discriminate)).
Defined.

(* ------------------------------------------------------------------ *)
(** ** Store invariants *)

Definition fresh (s : store) : Prop :=
  forall j, (next_id s <= j)%nat -> orders s !! j = None.

Definition targets_status (id : nat) (o : op) : bool :=
  match o with
  | OpUpdate j _ _ => Nat.eqb j id
  | _ => false
  end.

Lemma fresh_init : fresh init_store.
Proof. intros j _. reflexivity. Qed.

Lemma fresh_lt s id o : fresh s -> orders s !! id = Some o -> (id < next_id s)%nat.
Proof.
  intros Hf Hl. destruct (Nat.lt_ge_cases id (next_id s)) as [|Hge]; [assumption|].
  rewrite (Hf id Hge) in Hl. discriminate.
Qed.

Ltac step_cases s o :=
  destruct o as [name phone tot rem|id' st n|id' url m|d];
  unfold step, run_op;
  [ | unfold update_status; destruct (orders s !! id') as [o0|] eqn:Hl0
    | unfold attachPaymentProof; destruct (orders s !! id') as [o0|] eqn:Hl0;
      [destruct (o_status o0) eqn:Hs0|]
    | ]; simpl.

Lemma step_fresh s o : fresh s -> fresh (step s o).
Proof.
  intros Hf. step_cases s o; try exact Hf; intros j Hj; simpl in *.
  - rewrite lookup_insert_ne by lia. apply Hf. lia.
  - pose proof (fresh_lt s id' o0 Hf Hl0).
    rewrite lookup_insert_ne by lia. apply Hf. exact Hj.
  - pose proof (fresh_lt s id' o0 Hf Hl0).
    rewrite lookup_insert_ne by lia. apply Hf. exact Hj.
Qed.

Lemma exec_preserves (P : store -> Prop) :
  (forall s o, P s -> P (step s o)) -> forall ops s, P s -> P (exec s ops).
Proof. intros Hstep ops. induction ops as [|o ops IH]; intros s Hs; simpl; auto. Qed.

Lemma exec_fresh ops : fresh (exec init_store ops).
Proof. apply exec_preserves; [apply step_fresh | apply fresh_init]. Qed.

(** One request keeps every existing order, extends its history, and keeps
    its status unless it is a status update of that order. *)
Lemma step_keeps_order s o id od :
  fresh s -> orders s !! id = Some od ->
  exists od', orders (step s o) !! id = Some od' /\
    status_history od `prefix_of` status_history od' /\
    (targets_status id o = false -> o_status od' = o_status od).
Proof.
  intros Hf Hl. step_cases s o.
  - pose proof (fresh_lt s id od Hf Hl).
    rewrite lookup_insert_ne by lia. exists od. auto.
  - rewrite lookup_insert. destruct (decide (id' = id)) as [->|Hne].
    + rewrite Hl in Hl0. injection Hl0 as <-.
      eexists. split; [reflexivity|]. simpl. split; [by eexists|].
      rewrite Nat.eqb_refl. discriminate.
    + exists od. split; [exact Hl|]. split; [done|]. auto.
  - exists od. auto.
  - rewrite lookup_insert. destruct (decide (id' = id)) as [->|Hne].
    + rewrite Hl in Hl0. injection Hl0 as <-.
      eexists. split; [reflexivity|]. simpl. auto.
    + exists od. auto.
  - exists od. auto.
  - exists od. auto.
  - exists od. auto.
  - exists od. auto.
  - exists od. auto.
Qed.

Lemma chain_app st h e x :
  chain st h = Some x -> old_status e = x -> chain st (h ++ [e]) = Some (new_status e).
Proof.
  revert st. induction h as [|e0 h IH]; intros st Hc He; simpl in *.
  - injection Hc as ->. rewrite He. destruct x; reflexivity.
  - destruct (status_eqb (old_status e0) st); [|discriminate]. auto.
Qed.

Lemma nondecreasing_app l x :
  nondecreasing l -> Forall (fun y => (y <= x)%nat) l -> nondecreasing (l ++ [x]).
Proof.
  induction l as [|a l IH]; intros Hn Hall; simpl; [exact I|].
  inversion Hall as [|? ? Ha Hl]; subst.
  destruct l as [|b t]; simpl in *; [split; [exact Ha | exact I]|].
  destruct Hn as [Hab Hn]. split; [exact Hab|]. exact (IH Hn Hl).
Qed.

Definition store_inv (s : store) : Prop :=
  forall id o, orders s !! id = Some o -> history_ok (clock s) o.

Lemma store_inv_init : store_inv init_store.
Proof. intros id o Hl. discriminate. Qed.

Lemma step_store_inv s o : store_inv s -> store_inv (step s o).
Proof.
  intros Hi. step_cases s o; try exact Hi; intros j oj Hj; simpl in *.
  - rewrite lookup_insert in Hj. destruct (decide (next_id s = j)).
    + injection Hj as <-. repeat split; simpl; auto.
    + exact (Hi j oj Hj).
  - rewrite lookup_insert in Hj. destruct (decide (id' = j)) as [->|].
    + injection Hj as <-. destruct (Hi j o0 Hl0) as (Hc & Hn & Hall).
      unfold history_ok; simpl. split; [|split].
      * exact (chain_app _ _ {| old_status := o_status o0; new_status := st; note := n;
                                entry_at := clock s |} _ Hc eq_refl).
      * rewrite map_app. apply nondecreasing_app; [exact Hn|].
        apply Forall_map. exact Hall.
      * apply Forall_app. split; [exact Hall | constructor; simpl; auto].
    + exact (Hi j oj Hj).
  - rewrite lookup_insert in Hj. destruct (decide (id' = j)) as [->|].
    + injection Hj as <-. destruct (Hi j o0 Hl0) as (Hc & Hn & Hall).
      unfold history_ok; simpl. auto.
    + exact (Hi j oj Hj).
  - destruct (Hi j oj Hj) as (Hc & Hn & Hall). split; [exact Hc|]. split; [exact Hn|].
    eapply Forall_impl; [exact Hall|]. simpl. intros. lia.
Qed.

(** C5: a successful status update appends exactly one history entry whose
    old status is the order's status before the call (and touches no other
    order); on every reachable store each request only extends an order's
    history; and every order's history chains from [pending] to its current
    status (each entry's old status is the previous entry's new status) with
    non-decreasing timestamps, none later than the store's clock. *)
Theorem C5_history_append_only :
  (forall s id st n s', update_status s id st n = inr s' ->
     exists o, orders s !! id = Some o /\
       orders s' !! id = Some (with_status o st (status_history o ++
         [{| old_status := o_status o; new_status := st; note := n;
             entry_at := clock s |}])) /\
       (forall j, j <> id -> orders s' !! j = orders s !! j)) /\
  (forall ops o id od, orders (exec init_store ops) !! id = Some od ->
     exists od', orders (step (exec init_store ops) o) !! id = Some od' /\
       status_history od `prefix_of` status_history od') /\
  (forall ops id od, orders (exec init_store ops) !! id = Some od ->
     history_ok (clock (exec init_store ops)) od).
Proof.
  split; [|split].
  - intros s id st n s' H. unfold update_status in H.
    destruct (orders s !! id) as [o|] eqn:Hl; [|discriminate].
    injection H as <-. exists o. simpl. split; [reflexivity|]. split.
    + apply lookup_insert_eq.
    + intros j Hj. apply lookup_insert_ne. congruence.
  - intros ops o id od Hl.
    destruct (step_keeps_order _ o id od (exec_fresh ops) Hl) as (od' & H1 & H2 & _).
    eauto.
  - intros ops. apply (exec_preserves store_inv step_store_inv ops _ store_inv_init).
Qed.

Definition demo_ops : list op :=
  [OpCreate "Sita" "9800000000" (10396 # 10) None; OpTick 3;
   OpAttach 0 "/uploads/proof.png" (Some "eSewa"%string); OpTick 2;
   OpUpdate 0 Confirmed None; OpTick 4;
   OpUpdate 0 Completed (Some "delivered"%string)].

Lemma C5_history_append_only_witness :
  match update_status (store_with (sample_order Pending)) 0 Confirmed None with
  | inr s' => exists o, orders (store_with (sample_order Pending)) !! 0%nat = Some o
  | inl _ => False
  end /\
  match orders (exec init_store demo_ops) !! 0%nat with
  | Some od => history_ok (clock (exec init_store demo_ops)) od
  | None => False
  end.
Proof.
  split.
  - destruct (update_status (store_with (sample_order Pending)) 0 Confirmed None) as [e|s'] eqn:E.
    + vm_compute in E. discriminate.
    + destruct (proj1 C5_history_append_only _ _ _ _ _ E) as [o [Ho _]]. exists o. exact Ho.
  - destruct (orders (exec init_store demo_ops) !! 0%nat) as [od|] eqn:E.
    + exact (proj2 (proj2 C5_history_append_only) demo_ops 0%nat od E).
    + vm_compute in E. discriminate.
Defined.

(* ------------------------------------------------------------------ *)
(** ** Elapsed time *)

Lemma exec_keeps_status ops s id od :
  fresh s -> orders s !! id = Some od ->
  Forall (fun o => targets_status id o = false) ops ->
  exists od', orders (exec s ops) !! id = Some od' /\ o_status od' = o_status od.
Proof.
  revert s od. induction ops as [|o ops IH]; intros s od Hf Hl Hall; simpl.
  - exists od. auto.
  - inversion Hall as [|? ? Ho Hrest]; subst.
    destruct (step_keeps_order s o id od Hf Hl) as (od1 & H1 & _ & H3).
    destruct (IH (step s o) od1 (step_fresh s o Hf) H1 Hrest) as (od2 & H4 & H5).
    exists od2. split; [exact H4|]. rewrite H5. exact (H3 Ho).
Qed.

(** C8: the passing of time changes no order, and on every reachable store
    an order keeps its status through any sequence of requests and clock
    ticks that contains no status update of that order; in particular a
    [pending] order stays [pending] until an admin status update. *)
Theorem C8_no_time_based_change :
  (forall s d, orders (step s (OpTick d)) = orders s) /\
  (forall pre ops id od, orders (exec init_store pre) !! id = Some od ->
     Forall (fun o => targets_status id o = false) ops ->
     exists od', orders (exec (exec init_store pre) ops) !! id = Some od' /\
       o_status od' = o_status od).
Proof.
  split.
  - intros s d. reflexivity.
  - intros pre ops id od Hl Hall. exact (exec_keeps_status ops _ id od (exec_fresh pre) Hl Hall).
Qed.

Lemma C8_no_time_based_change_witness :
  match orders (exec init_store [OpCreate "Ram" "9811111111" 500 None]) !! 0%nat with
  | Some od => exists od', orders (exec (exec init_store [OpCreate "Ram" "9811111111" 500 None])
                                  [OpTick 600; OpAttach 0 "/uploads/p.png" None; OpTick 1200])
                             !! 0%nat = Some od' /\ o_status od' = o_status od
  | None => False
  end.
Proof.
  destruct (orders (exec init_store [OpCreate "Ram" "9811111111" 500 None]) !! 0%nat)
    as [od|] eqn:E.
  - apply (proj2 C8_no_time_based_change _ _ 0%nat od E).
    repeat constructor.
  - vm_compute in E. discriminate.
Defined.

(* ------------------------------------------------------------------ *)
(** ** Payment proof *)

(** C6: on a [pending] order, attaching a payment proof records the asset
    reference and the payment method name and leaves the status, the
    history, every other field and every other order unchanged; on an order
    in any other status it fails with [InvalidState] and the store is kept. *)
Theorem C6_attach_payment_proof s id od url m :
  orders s !! id = Some od ->
  (o_status od = Pending ->
     exists s' od', attachPaymentProof s id url m = inr s' /\
       orders s' !! id = Some od' /\
       payment_screenshot od' = Some url /\ payment_method od' = m /\
       o_status od' = o_status od /\ status_history od' = status_history od /\
       customer_name od' = customer_name od /\ customer_phone od' = customer_phone od /\
       total_amount od' = total_amount od /\ order_remark od' = order_remark od /\
       created_at od' = created_at od /\
       (forall j, j <> id -> orders s' !! j = orders s !! j) /\
       next_id s' = next_id s /\ clock s' = clock s) /\
  (o_status od <> Pending ->
     attachPaymentProof s id url m = inl InvalidState /\ step s (OpAttach id url m) = s).
Proof.
  intros Hl. unfold step, run_op, attachPaymentProof. rewrite Hl. split.
  - intros Hp. rewrite Hp. do 2 eexists. split; [reflexivity|]. simpl.
    split; [apply lookup_insert_eq|].
    repeat split; auto. intros j Hj. apply lookup_insert_ne. congruence.
  - intros Hp. destruct (o_status od); [congruence | auto ..].
Qed.

Lemma C6_attach_payment_proof_witness :
  attachPaymentProof (store_with (sample_order Confirmed)) 0 "/uploads/p.png" None
    = inl InvalidState /\
  exists s', attachPaymentProof (store_with (sample_order Pending)) 0 "/uploads/p.png" None
               = inr s'.
Proof.
  split.
  - exact (proj1 (proj2 (C6_attach_payment_proof (store_with (sample_order Confirmed)) 0
             (sample_order Confirmed) "/uploads/p.png" None eq_refl) ltac:(discriminate))).
  - destruct (proj1 (C6_attach_payment_proof (store_with (sample_order Pending)) 0
             (sample_order Pending) "/uploads/p.png" None eq_refl) eq_refl)
      as (s' & od' & H & _). exists s'. exact H.
Defined.

(* ------------------------------------------------------------------ *)
(** ** Payment page *)

Definition screenshot_ok (p : payment_page) : Prop :=
  forall f, screenshot p = Some f -> (file_size f <= 10 * 1024 * 1024)%Z.

Lemma handleScreenshotChange_ok p f :
  screenshot_ok p -> screenshot_ok (handleScreenshotChange p f).
Proof.
  intros Hp. destruct f as [f|]; simpl; [|exact Hp].
  destruct (Z.gtb (file_size f) (10 * 1024 * 1024)) eqn:Hg; [exact Hp|].
  intros f' Hf'. simpl in Hf'. injection Hf' as <-.
  rewrite Z.gtb_ltb in Hg. apply Z.ltb_ge in Hg. lia.
Qed.

Lemma page_step_ok uploadImage orderId p ev :
  screenshot_ok p ->
  screenshot_ok (snd (page_step uploadImage orderId p ev)) /\
  forall c, In c (fst (page_step uploadImage orderId p ev)) ->
    screenshot p = Some (call_file c) /\
    uploadImage (call_file c) = Some (call_url c) /\ call_order c = orderId.
Proof.
  intros Hp. destruct ev as [f|n|]; simpl.
  - split; [apply handleScreenshotChange_ok; exact Hp | tauto].
  - split; [exact Hp | tauto].
  - destruct (negb (isSubmitting p) && bool_decide (is_Some (screenshot p))); simpl;
      [|split; [exact Hp | tauto]].
    split; [exact Hp|]. unfold handleProcessOrder.
    destruct (screenshot p) as [f|] eqn:Hs; simpl; [|tauto].
    destruct (uploadImage f) as [url|] eqn:Hu; simpl; [|tauto].
    intros c [<-|[]]. simpl. auto.
Qed.

Lemma run_page_calls uploadImage orderId evs p c :
  screenshot_ok p -> In c (run_page uploadImage orderId p evs) ->
  (file_size (call_file c) <= 10 * 1024 * 1024)%Z /\
  uploadImage (call_file c) = Some (call_url c) /\ call_order c = orderId.
Proof.
  revert p. induction evs as [|ev evs IH]; intros p Hp; simpl; [tauto|].
  pose proof (page_step_ok uploadImage orderId p ev Hp) as [Hok Hcalls].
  destruct (page_step uploadImage orderId p ev) as [calls p'] eqn:E. simpl in *.
  intros Hin. apply in_app_or in Hin as [Hin|Hin].
  - destruct (Hcalls c Hin) as (Hs & Hu & Ho). auto.
  - exact (IH p' Hok Hin).
Qed.

(** C9: from the payment page as it opens, every [uploadPaymentScreenshot]
    call carries the URL the asset upload returned for the selected
    screenshot, that file is at most 10 MB (10 * 1024 * 1024 bytes), and,
    the upload endpoint answering non-empty URLs, the URL is non-empty;
    without a selected screenshot no call is made. *)
Theorem C9_proof_has_asset uploadImage orderId evs c :
  asset_storage_contract uploadImage ->
  In c (run_page uploadImage orderId page0 evs) ->
  call_url c <> ""%string /\ uploadImage (call_file c) = Some (call_url c) /\
  (file_size (call_file c) <= 10 * 1024 * 1024)%Z /\ call_order c = orderId.
Proof.
  intros Hup Hin.
  assert (H0 : screenshot_ok page0) by (intros f Hf; discriminate).
  destruct (run_page_calls uploadImage orderId evs page0 c H0 Hin) as (Hs & Hu & Ho).
  split; [exact (Hup _ _ Hu)|]. auto.
Qed.

Definition demo_upload (f : file) : option string :=
  Some ("/uploads/" ++ file_name f)%string.

Definition big_png : file := {| file_name := "big.png"; file_size := 12 * 1024 * 1024 |}.
Definition receipt_png : file := {| file_name := "receipt.png"; file_size := 345678 |}.

Definition pay_events : list page_event :=
  [SelectMethod "eSewa"; ChooseFile (Some big_png); ClickProcess;
   ChooseFile (Some receipt_png); ChooseFile (Some big_png); ClickProcess].

Lemma C9_proof_has_asset_witness :
  run_page demo_upload "ord1" page0 pay_events =
    [{| call_order := "ord1"; call_url := "/uploads/receipt.png";
        call_method := Some "eSewa"%string; call_file := receipt_png |}] /\
  (file_size receipt_png <= 10 * 1024 * 1024)%Z.
Proof.
  assert (Hup : asset_storage_contract demo_upload)
    by (intros f url H; injection H as <-; discriminate).
  assert (Hrun : run_page demo_upload "ord1" page0 pay_events =
    [{| call_order := "ord1"; call_url := "/uploads/receipt.png";
        call_method := Some "eSewa"%string; call_file := receipt_png |}])
    by reflexivity.
  split; [exact Hrun|].
  assert (Hin : In {| call_order := "ord1"; call_url := "/uploads/receipt.png";
        call_method := Some "eSewa"%string; call_file := receipt_png |}
        (run_page demo_upload "ord1" page0 pay_events)) by (rewrite Hrun; left; reflexivity).
  exact (proj1 (proj2 (proj2 (C9_proof_has_asset demo_upload "ord1" pay_events _ Hup Hin)))).
Defined.

(* ==================================================================== *)
(** * Further properties of the code *)

(* ------------------------------------------------------------------ *)
(** ** The admin order list *)

Lemma filter_sublist {A} (f : A -> bool) (l : list A) : List.filter f l `sublist_of` l.
Proof.
  induction l as [|x l IH]; simpl; [constructor|].
  destruct (f x); [apply sublist_skip | apply sublist_cons]; exact IH.
Qed.

Lemma filter_sublist_mono {A} (f : A -> bool) (l1 l2 : list A) :
  l1 `sublist_of` l2 -> List.filter f l1 `sublist_of` List.filter f l2.
Proof.
  induction 1 as [|x l1 l2 H IH|x l1 l2 H IH]; simpl; [constructor| |].
  - destruct (f x); [apply sublist_skip|]; exact IH.
  - destruct (f x); [apply sublist_cons|]; exact IH.
Qed.

Lemma filter_sublist_impl {A} (f g : A -> bool) (l : list A) :
  (forall x, f x = true -> g x = true) -> List.filter f l `sublist_of` List.filter g l.
Proof.
  intros Hfg. induction l as [|x l IH]; simpl; [constructor|].
  destruct (f x) eqn:Hf.
  - rewrite (Hfg x Hf). apply sublist_skip. exact IH.
  - destruct (g x); [apply sublist_cons|]; exact IH.
Qed.

(** X1: the admin order list shows a sub-list of the fetched orders in
    their fetched order; with a status filter other than [all] every shown
    order has exactly that status; with no search and [all] every order is
    shown. *)
Theorem filter_orders_sublist os searchTerm statusFilter :
  filter_orders os searchTerm statusFilter `sublist_of` os /\
  (statusFilter <> "all"%string ->
     Forall (fun o => ao_status o = Some statusFilter)
       (filter_orders os searchTerm statusFilter)) /\
  filter_orders os "" "all" = os.
Proof.
  unfold filter_orders. split; [|split; [|reflexivity]].
  - destruct (String.eqb searchTerm ""), (String.eqb statusFilter "all");
      try apply filter_sublist; try reflexivity.
    transitivity (List.filter (matches_search (js_lower searchTerm)) os);
      apply filter_sublist.
  - intros Hne. apply String.eqb_neq in Hne. rewrite Hne.
    apply List.Forall_forall. intros o Hin. apply filter_In in Hin as [_ Hs].
    unfold status_is in Hs. destruct (ao_status o) as [x|]; [|discriminate].
    apply String.eqb_eq in Hs. subst. reflexivity.
Qed.

Lemma filter_orders_sublist_witness :
  Forall (fun o => ao_status o = Some "completed"%string)
    (filter_orders demo_admin_orders "sita" "completed").
Proof.
  apply (filter_orders_sublist demo_admin_orders "sita" "completed"). discriminate.
Defined.

Lemma js_lower_append t u :
  js_lower (String.append t u) = String.append (js_lower t) (js_lower u).
Proof. induction t as [|c t IH]; simpl; [reflexivity|]. unfold js_lower in *. simpl. by rewrite IH. Qed.

Lemma str_prefix_append p q s :
  str_prefix (String.append p q) s = true -> str_prefix p s = true.
Proof.
  revert s. induction p as [|a p IH]; intros s H; [reflexivity|].
  destruct s as [|b s]; simpl in *; [discriminate|].
  apply andb_true_iff in H as [Hab H]. rewrite Hab. simpl. exact (IH s H).
Qed.

Lemma includes_append s p q :
  includes s (String.append p q) = true -> includes s p = true.
Proof.
  induction s as [|c s IH]; simpl; intros H.
  - rewrite orb_false_r in H |- *. exact (str_prefix_append _ _ _ H).
  - apply orb_true_iff in H as [H|H].
    + rewrite (str_prefix_append _ _ _ H). reflexivity.
    + rewrite (IH H). apply orb_true_r.
Qed.

Lemma opt_includes_append f v p q :
  opt_includes f v (String.append p q) = true -> opt_includes f v p = true.
Proof. destruct v; simpl; [apply includes_append | discriminate]. Qed.

Lemma matches_search_append p q o :
  matches_search (String.append p q) o = true -> matches_search p o = true.
Proof.
  unfold matches_search. intros H.
  repeat (apply orb_true_iff in H as [H|H] || idtac).
  all: repeat rewrite orb_true_iff.
  all: first [ left; left; left; left; left; eapply opt_includes_append; exact H
             | left; left; left; left; right; eapply opt_includes_append; exact H
             | left; left; left; right; eapply opt_includes_append; exact H
             | left; left; right; eapply includes_append; exact H
             | left; right; eapply opt_includes_append; exact H
             | right; eapply opt_includes_append; exact H ].
Qed.

(** X2: typing more characters into the admin search only narrows the
    list: the orders shown for the search term [t ++ u] are a sub-list of
    those shown for [t], for any status filter. *)
Theorem filter_orders_narrowing os t u statusFilter :
  filter_orders os (String.append t u) statusFilter `sublist_of`
  filter_orders os t statusFilter.
Proof.
  unfold filter_orders.
  assert (H : (if String.eqb (String.append t u) "" then os
               else List.filter (matches_search (js_lower (String.append t u))) os)
              `sublist_of`
              (if String.eqb t "" then os
               else List.filter (matches_search (js_lower t)) os)).
  { destruct (String.eqb_spec t "") as [->|Ht].
    - destruct (String.eqb (String.append "" u) ""); [reflexivity | apply filter_sublist].
    - destruct (String.eqb_spec (String.append t u) "") as [Htu|Htu].
      + destruct t; [congruence | discriminate].
      + apply filter_sublist_impl. intros o Ho. rewrite js_lower_append in Ho.
        exact (matches_search_append _ _ _ Ho). }
  destruct (String.eqb statusFilter "all"); [exact H | apply filter_sublist_mono; exact H].
Qed.

Ltac status_string_cases x :=
  destruct (String.eqb_spec x "pending") as [->|H1];
  [|destruct (String.eqb_spec x "confirmed") as [->|H2];
  [|destruct (String.eqb_spec x "completed") as [->|H3];
  [|destruct (String.eqb_spec x "cancelled") as [->|H4]]]].

Lemma unknown_status_eqb x :
  x <> "pending"%string -> x <> "confirmed"%string ->
  x <> "completed"%string -> x <> "cancelled"%string ->
  String.eqb x "pending" = false /\ String.eqb x "confirmed" = false /\
  String.eqb x "completed" = false /\ String.eqb x "cancelled" = false /\
  String.eqb "pending" x = false /\ String.eqb "confirmed" x = false /\
  String.eqb "completed" x = false /\ String.eqb "cancelled" x = false.
Proof.
  intros H1 H2 H3 H4. rewrite !(String.eqb_sym _ x).
  rewrite !(proj2 (String.eqb_neq _ _)) by assumption. tauto.
Qed.

Lemma length_filter_cons {A} (f : A -> bool) x l :
  List.length (List.filter f (x :: l)) = (b2n (f x) + List.length (List.filter f l))%nat.
Proof. simpl. by destruct (f x). Qed.

Lemma status_counts_one o :
  (b2n (status_is (status_value Pending) o) + b2n (status_is (status_value Confirmed) o) +
   b2n (status_is (status_value Completed) o) + b2n (status_is (status_value Cancelled) o) +
   b2n (negb (known_status o)))%nat = 1%nat /\
  b2n (status_eqb (status_badge (ao_status o)) Pending) =
  (b2n (status_is (status_value Pending) o) + b2n (negb (known_status o)))%nat.
Proof.
  unfold status_is, known_status, status_badge.
  destruct (ao_status o) as [x|]; [|split; reflexivity].
  status_string_cases x; try (split; reflexivity).
  destruct (unknown_status_eqb x H1 H2 H3 H4) as (E1 & E2 & E3 & E4 & E5 & E6 & E7 & E8).
  unfold STATUS_OPTIONS. cbn [status_value existsb List.find].
  rewrite E1, E2, E3, E4, E5, E6, E7, E8. split; reflexivity.
Qed.

(** X3: the four status counters of the admin stats count each order with
    a known status exactly once: their sum plus the number of orders whose
    status is missing or not one of the four equals the number of orders. *)
Theorem stats_partition os :
  (stat_count os Pending + stat_count os Confirmed + stat_count os Completed +
   stat_count os Cancelled +
   List.length (List.filter (fun o => negb (known_status o)) os))%nat = List.length os.
Proof.
  unfold stat_count. induction os as [|o os IH]; [reflexivity|].
  rewrite !length_filter_cons. cbn [List.length].
  pose proof (proj1 (status_counts_one o)). lia.
Qed.

(** X4: an order whose status is missing or unknown is shown with the
    Pending badge but is not counted in the Pending stat: the number of
    orders badged Pending is the Pending stat plus the number of such
    orders. *)
Theorem pending_badge_count os :
  List.length (List.filter (fun o => status_eqb (status_badge (ao_status o)) Pending) os) =
  (stat_count os Pending + List.length (List.filter (fun o => negb (known_status o)) os))%nat.
Proof.
  unfold stat_count. induction os as [|o os IH]; [reflexivity|].
  rewrite !length_filter_cons.
  pose proof (proj2 (status_counts_one o)). lia.
Qed.

Lemma insert_desc_perm x l : Permutation (insert_desc x l) (x :: l).
Proof.
  induction l as [|y l IH]; simpl; [reflexivity|].
  destruct (Z.leb (ao_created_at y) (ao_created_at x)); [reflexivity|].
  rewrite IH. apply perm_swap.
Qed.

Lemma insert_desc_sorted x l :
  Sorted newer_or_same l -> Sorted newer_or_same (insert_desc x l).
Proof.
  induction 1 as [|y l Hs IH Hhd]; simpl; [repeat constructor|].
  destruct (Z.leb_spec (ao_created_at y) (ao_created_at x)) as [Hle|Hlt].
  - constructor; [constructor; assumption | constructor; exact Hle].
  - constructor; [exact IH|].
    destruct l as [|z l]; simpl; [constructor; unfold newer_or_same; lia|].
    inversion Hhd; subst.
    destruct (Z.leb (ao_created_at z) (ao_created_at x)); constructor;
      unfold newer_or_same in *; lia.
Qed.

(** X5: [fetchOrders] lists exactly the fetched orders (a permutation of
    them), newest [created_at] first. *)
Theorem sort_orders_spec os :
  Permutation (sort_orders os) os /\ Sorted newer_or_same (sort_orders os).
Proof.
  induction os as [|x os [IHp IHs]]; simpl; [split; constructor|]. split.
  - rewrite insert_desc_perm. constructor. exact IHp.
  - apply insert_desc_sorted. exact IHs.
Qed.

Lemma list_ascii_of_string_append a b :
  list_ascii_of_string (String.append a b) = list_ascii_of_string a ++ list_ascii_of_string b.
Proof. induction a as [|c a IH]; simpl; [reflexivity|]. rewrite IH. reflexivity. Qed.

Lemma drop_js_spaces_suffix l : exists p, l = p ++ drop_js_spaces l.
Proof.
  induction l as [|c l [p Hp]]; simpl; [exists []; reflexivity|].
  destruct (is_js_space c); [exists (c :: p); simpl; rewrite <- Hp; reflexivity|].
  exists []; reflexivity.
Qed.

Lemma drop_js_spaces_head l c r :
  drop_js_spaces l = c :: r -> is_js_space c = false.
Proof.
  induction l as [|x l IH]; simpl; [discriminate|].
  destruct (is_js_space x) eqn:Hx; [exact IH|]. intros [= -> _]. exact Hx.
Qed.

Lemma drop_js_spaces_idem l : drop_js_spaces (drop_js_spaces l) = drop_js_spaces l.
Proof.
  induction l as [|x l IH]; simpl; [reflexivity|].
  destruct (is_js_space x) eqn:Hx; [exact IH|]. simpl. rewrite Hx. reflexivity.
Qed.

Lemma drop_js_spaces_in c l :
  In c l -> is_js_space c = false -> In c (drop_js_spaces l).
Proof.
  induction l as [|x l IH]; simpl; [contradiction|].
  intros Hin Hc. destruct (is_js_space x) eqn:Hx; [|exact Hin].
  destruct Hin as [<-|Hin]; [congruence|]. exact (IH Hin Hc).
Qed.

Lemma js_trim_idem s : js_trim (js_trim s) = js_trim s.
Proof.
  unfold js_trim. rewrite list_ascii_of_string_of_list_ascii.
  set (l1 := drop_js_spaces (list_ascii_of_string s)).
  set (l2 := drop_js_spaces (rev l1)).
  assert (Hd : drop_js_spaces (rev l2) = rev l2).
  { destruct (drop_js_spaces_suffix (rev l1)) as [p Hp]. fold l2 in Hp.
    assert (Hl1 : l1 = rev l2 ++ rev p).
    { rewrite <- (rev_involutive l1), Hp, rev_app_distr. reflexivity. }
    destruct (rev l2) as [|c r] eqn:Hr; [reflexivity|].
    assert (Hc : is_js_space c = false).
    { apply (drop_js_spaces_head (list_ascii_of_string s) c (r ++ rev p)).
      fold l1. rewrite Hl1. reflexivity. }
    simpl. rewrite Hc. reflexivity. }
  rewrite Hd, rev_involutive. unfold l2. rewrite drop_js_spaces_idem. reflexivity.
Qed.

Lemma js_trim_nonempty c s :
  In c (list_ascii_of_string s) -> is_js_space c = false -> js_trim s <> ""%string.
Proof.
  intros Hin Hc. unfold js_trim.
  apply (drop_js_spaces_in c) in Hin; [|exact Hc].
  apply in_rev in Hin. apply (drop_js_spaces_in c) in Hin; [|exact Hc].
  apply in_rev in Hin.
  destruct (rev _) as [|x r]; [contradiction|]. discriminate.
Qed.

Lemma trim_or_none_some r c :
  In c (list_ascii_of_string r) -> is_js_space c = false ->
  (if String.eqb (js_trim r) "" then None else Some (js_trim r)) = Some (js_trim r).
Proof.
  intros Hin Hc. destruct (String.eqb_spec (js_trim r) "") as [He|]; [|reflexivity].
  exfalso. exact (js_trim_nonempty c r Hin Hc He).
Qed.

Lemma build_remark_none_iff show_amount pd notes :
  build_remark show_amount pd notes = None <-> pd = None /\ notes = ""%string.
Proof.
  unfold build_remark. split.
  - intros H. destruct pd as [p|]; destruct (String.eqb_spec notes "") as [En|En].
    + rewrite (trim_or_none_some _ "P"%char) in H; [discriminate| |reflexivity].
      simpl. left. reflexivity.
    + rewrite (trim_or_none_some _ "P"%char) in H; [discriminate| |reflexivity].
      simpl. left. reflexivity.
    + split; [reflexivity | exact En].
    + rewrite (trim_or_none_some _ "N"%char) in H; [discriminate| |reflexivity].
      simpl. left. reflexivity.
  - intros [-> ->]. reflexivity.
Qed.

Lemma build_remark_trimmed show_amount pd notes r :
  build_remark show_amount pd notes = Some r -> r <> ""%string /\ js_trim r = r.
Proof.
  unfold build_remark. match goal with |- context [String.eqb (js_trim ?t) ""] =>
    destruct (String.eqb_spec (js_trim t) "") as [|Hne] end; [discriminate|].
  intros [= <-]. split; [exact Hne | apply js_trim_idem].
Qed.

(** X6: [handleSubmitOrder] sends an order exactly when no submission is
    running, the cart is non-empty and the name and phone fields are
    non-empty strings; a name or phone of spaces only passes the check. *)
Theorem handleSubmitOrder_guard show_amount isSubmitting cart form pd settings :
  handleSubmitOrder show_amount isSubmitting cart form pd settings <> None <->
  isSubmitting = false /\ cart <> [] /\
  form_name form <> ""%string /\ form_phone form <> ""%string.
Proof.
  unfold handleSubmitOrder.
  destruct isSubmitting; simpl; [split; [congruence | intros [? _]; discriminate]|].
  destruct cart as [|x cart]; simpl; [split; [congruence | intros [_ [? _]]; congruence]|].
  destruct (String.eqb_spec (form_name form) "") as [En|En];
  destruct (String.eqb_spec (form_phone form) "") as [Ep|Ep]; simpl;
    split; try congruence; try tauto.
  intros _. repeat split; congruence.
Qed.

(** X7: the order payload of [handleSubmitOrder] carries the form's name and
    phone unchanged, an email only when one was typed, one item per cart line
    with its price and quantity, the checkout total, and a remark only when
    a promo is applied or a note was typed; a remark that is sent is non-empty
    and already trimmed. *)
Theorem handleSubmitOrder_payload show_amount isSubmitting cart form pd settings pl :
  handleSubmitOrder show_amount isSubmitting cart form pd settings = Some pl ->
  pl_customer_name pl = form_name form /\
  pl_customer_phone pl = form_phone form /\
  (pl_customer_email pl = None <-> form_email form = ""%string) /\
  List.map pi_price (pl_items pl) = List.map price cart /\
  List.map pi_quantity (pl_items pl) = List.map quantity cart /\
  pl_total_amount pl = total (checkout_pricing cart pd settings) /\
  (pl_remark pl = None <-> pd = None /\ form_remark form = ""%string) /\
  (forall r, pl_remark pl = Some r -> r <> ""%string /\ js_trim r = r).
Proof.
  unfold handleSubmitOrder.
  destruct (isSubmitting || Nat.eqb _ 0); [discriminate|].
  destruct (String.eqb _ "" || String.eqb _ ""); [discriminate|].
  intros [= <-]; simpl.
  split; [reflexivity|]. split; [reflexivity|].
  split; [destruct (String.eqb_spec (form_email form) ""); split; congruence|].
  split; [rewrite map_map; reflexivity|].
  split; [rewrite map_map; reflexivity|].
  split; [reflexivity|].
  split; [apply build_remark_none_iff|].
  intros r Hr. exact (build_remark_trimmed _ _ _ _ Hr).
Qed.

Lemma handleSubmitOrder_payload_witness :
  exists pl,
    handleSubmitOrder (fun _ => "10"%string) false [item "A" 100 2]
      {| form_name := "Ram"; form_phone := "98"; form_email := ""; form_remark := "" |}
      (Some {| pd_code := "SAVE10"; discount_amount := 10 |})
      {| service_charge := 5; tax_percentage := 13 |} = Some pl /\
    pl_customer_name pl = "Ram"%string /\
    pl_customer_phone pl = "98"%string /\
    (pl_customer_email pl = None <-> ""%string = ""%string) /\
    List.map pi_price (pl_items pl) = List.map price [item "A" 100 2] /\
    List.map pi_quantity (pl_items pl) = List.map quantity [item "A" 100 2] /\
    pl_total_amount pl = total (checkout_pricing [item "A" 100 2]
      (Some {| pd_code := "SAVE10"; discount_amount := 10 |})
      {| service_charge := 5; tax_percentage := 13 |}) /\
    (pl_remark pl = None <-> Some {| pd_code := "SAVE10"; discount_amount := 10 |} = None
                             /\ ""%string = ""%string) /\
    (forall r, pl_remark pl = Some r -> r <> ""%string /\ js_trim r = r).
Proof.
  eexists. split; [reflexivity|].
  apply (handleSubmitOrder_payload (fun _ => "10"%string) false [item "A" 100 2]
    {| form_name := "Ram"; form_phone := "98"; form_email := ""; form_remark := "" |}
    (Some {| pd_code := "SAVE10"; discount_amount := 10 |})
    {| service_charge := 5; tax_percentage := 13 |}).
  reflexivity.
Defined.

(** X8: [handleApplyPromo] sends no validation request for a blank code and
    then keeps the current discount; otherwise it validates the trimmed,
    non-empty code against the subtotal and takes the answer as the new
    discount. *)
Theorem handleApplyPromo_request validate promoCode sub pd :
  match handleApplyPromo validate promoCode sub pd with
  | (None, pd') => js_trim promoCode = ""%string /\ pd' = pd
  | (Some (c, s), pd') =>
      c = js_trim promoCode /\ c <> ""%string /\ js_trim c = c /\ s = sub /\
      pd' = validate c s
  end.
Proof.
  unfold handleApplyPromo.
  destruct (String.eqb_spec (js_trim promoCode) "") as [E|E].
  - split; [exact E | reflexivity].
  - repeat split; [exact E | apply js_trim_idem].
Qed.

(** X9: after [handleRemovePromo] the code field is empty and the checkout
    charges no discount: total = subtotal + service charge + tax on the
    subtotal. *)
Theorem handleRemovePromo_pricing cart settings :
  let b := checkout_pricing cart (snd handleRemovePromo) settings in
  fst handleRemovePromo = ""%string /\ discountAmount b == 0 /\
  total b == getCartTotal cart + service_charge settings
             + getCartTotal cart * (tax_percentage settings / 100).
Proof. simpl. split; [reflexivity|]. split; [reflexivity | ring]. Qed.

(** X10: when the validation of a non-blank code fails, [handleApplyPromo]
    drops any earlier discount: the checkout charges no discount and total =
    subtotal + service charge + tax on the subtotal. *)
Theorem handleApplyPromo_failed validate promoCode sub pd cart settings :
  js_trim promoCode <> ""%string ->
  validate (js_trim promoCode) sub = None ->
  let b := checkout_pricing cart (snd (handleApplyPromo validate promoCode sub pd)) settings in
  discountAmount b == 0 /\
  total b == getCartTotal cart + service_charge settings
             + getCartTotal cart * (tax_percentage settings / 100).
Proof.
  intros Hne Hv. unfold handleApplyPromo.
  destruct (String.eqb_spec (js_trim promoCode) "") as [E|_]; [contradiction|].
  simpl. rewrite Hv. simpl. split; [reflexivity | ring].
Qed.

Lemma handleApplyPromo_failed_witness :
  js_trim " SAVE10 " <> ""%string /\
  (fun _ _ => None : option promo_discount) (js_trim " SAVE10 ") 200 = None /\
  let b := checkout_pricing [item "A" 100 2]
             (snd (handleApplyPromo (fun _ _ => None) " SAVE10 " 200
                     (Some {| pd_code := "OLD"; discount_amount := 30 |})))
             {| service_charge := 5; tax_percentage := 13 |} in
  discountAmount b == 0 /\
  total b == getCartTotal [item "A" 100 2] + 5 + getCartTotal [item "A" 100 2] * (13 / 100).
Proof.
  split; [vm_compute; discriminate|]. split; [reflexivity|].
  exact (handleApplyPromo_failed (fun _ _ => None) " SAVE10 " 200
           (Some {| pd_code := "OLD"; discount_amount := 30 |}) [item "A" 100 2]
           {| service_charge := 5; tax_percentage := 13 |}
           ltac:(vm_compute; discriminate) eq_refl).
Defined.

Lemma fold_Qmin_spec ps m :
  In (fold_left Qmin ps m) (m :: ps) /\
  Forall (fun p => fold_left Qmin ps m <= p) (m :: ps).
Proof.
  revert m. induction ps as [|x ps IH]; intros m; simpl.
  - split; [left; reflexivity | constructor; [apply Qle_refl | constructor]].
  - destruct (IH (Qmin m x)) as [Hin Hle].
    apply Forall_cons_iff in Hle as [Hm Hps]. split.
    + destruct Hin as [Hin|Hin]; [|right; right; exact Hin].
      rewrite <- Hin. unfold Qmin, GenericMinMax.gmin.
      destruct (Qcompare m x); [left|left|right; left]; reflexivity.
    + constructor; [|constructor; [|exact Hps]];
        eapply Qle_trans; [exact Hm | apply Q.le_min_l | exact Hm | apply Q.le_min_r].
Qed.

(** X11: the card price [lowestPrice] is 0 for a product without
    variations, and otherwise one of the variation prices, no larger than
    any of them. *)
Theorem lowestPrice_spec variations :
  match variations with
  | Some (p :: ps) =>
      In (lowestPrice variations) (p :: ps) /\
      Forall (fun q => lowestPrice variations <= q) (p :: ps)
  | _ => lowestPrice variations = 0
  end.
Proof.
  destruct variations as [[|p ps]|]; try reflexivity.
  exact (fold_Qmin_spec ps p).
Qed.

(** X12: [handleSaveProfile] sends nothing when the name is blank; a sent
    name is the trimmed, non-empty form name, and the phone is sent trimmed
    and non-empty or as null when blank. *)
Theorem handleSaveProfile_params ef :
  match handleSaveProfile ef with
  | None => js_trim (ef_name ef) = ""%string
  | Some (n, ph) =>
      n = js_trim (ef_name ef) /\ n <> ""%string /\ js_trim n = n /\
      match ph with
      | None => js_trim (ef_phone ef) = ""%string
      | Some p => p = js_trim (ef_phone ef) /\ p <> ""%string /\ js_trim p = p
      end
  end.
Proof.
  unfold handleSaveProfile.
  destruct (String.eqb_spec (js_trim (ef_name ef)) "") as [E|E]; [exact E|].
  split; [reflexivity|]. split; [exact E|]. split; [apply js_trim_idem|].
  destruct (String.eqb_spec (js_trim (ef_phone ef)) "") as [P|P]; [exact P|].
  split; [reflexivity|]. split; [exact P | apply js_trim_idem].
Qed.

(** X13: opening the profile editor and saving it unchanged sends the stored
    name back when it is already trimmed and non-empty; after
    [handleCancelEdit] saving sends nothing. *)
Theorem edit_then_save c n :
  c_name c = Some n -> js_trim n = n -> n <> ""%string ->
  option_map fst (handleSaveProfile (handleEditProfile c)) = Some n /\
  handleSaveProfile handleCancelEdit = None.
Proof.
  intros Hc Ht Hne. split; [|reflexivity].
  unfold handleSaveProfile, handleEditProfile. simpl. rewrite Hc. simpl. rewrite Ht.
  destruct (String.eqb_spec n "") as [E|_]; [contradiction | reflexivity].
Qed.

Lemma edit_then_save_witness :
  option_map fst (handleSaveProfile
    (handleEditProfile {| c_name := Some "Sita"%string; c_phone := None |})) = Some "Sita"%string /\
  handleSaveProfile handleCancelEdit = None.
Proof.
  apply (edit_then_save {| c_name := Some "Sita"%string; c_phone := None |} "Sita"%string);
    [reflexivity | vm_compute; reflexivity | discriminate].
Defined.

Lemma view_step_calls uploadImage orderId v ev :
  Forall (fun c => call_order c = orderId /\ is_Some (call_method c))
    (fst (view_step uploadImage orderId v ev)).
Proof.
  destruct ev as [n| |f|]; simpl.
  - destruct (vstep v); simpl; constructor.
  - destruct (vstep v); simpl; constructor.
  - destruct (details_shown v); simpl; constructor.
  - destruct (details_shown v) eqn:Hd; simpl; [|constructor].
    assert (Hm : is_Some (selectedMethod (vpage v))).
    { unfold details_shown in Hd. destruct (vstep v); try discriminate.
      apply bool_decide_eq_true in Hd. exact Hd. }
    destruct (negb _ && _); simpl; [|constructor].
    unfold handleProcessOrder.
    destruct (screenshot (vpage v)) as [f|]; simpl; [|constructor].
    destruct (uploadImage f); simpl; constructor; [split; [reflexivity | exact Hm] | constructor].
Qed.

(** X14: every payment proof sent from the payment page is for the page's
    order and carries a payment method, whatever the user clicks. *)
Theorem run_view_calls_have_method uploadImage orderId v evs :
  Forall (fun c => call_order c = orderId /\ is_Some (call_method c))
    (run_view uploadImage orderId v evs).
Proof.
  revert v. induction evs as [|ev evs IH]; intros v; simpl; [constructor|].
  pose proof (view_step_calls uploadImage orderId v ev) as H.
  destruct (view_step uploadImage orderId v ev) as [calls v']. simpl in H.
  apply Forall_app. split; [exact H | apply IH].
Qed.

(** X15: [handleBack] clears the chosen method but keeps the screenshot:
    choosing a file under one method, going back and choosing another
    method lets the order be processed at once with the earlier file and the
    new method. *)
Theorem back_keeps_screenshot uploadImage orderId a b f url :
  (file_size f <= 10 * 1024 * 1024)%Z ->
  uploadImage f = Some url ->
  run_view uploadImage orderId view0 [VSelect a; VChoose (Some f); VBack; VSelect b; VProcess] =
  [{| call_order := orderId; call_url := url; call_method := Some b; call_file := f |}].
Proof.
  intros Hs Hu. simpl.
  assert (Hg : Z.gtb (file_size f) (10 * 1024 * 1024) = false).
  { rewrite Z.gtb_ltb. apply Z.ltb_ge. exact Hs. }
  rewrite Hg. simpl. unfold handleProcessOrder. simpl. rewrite Hu. reflexivity.
Qed.

Lemma back_keeps_screenshot_witness :
  (file_size receipt_png <= 10 * 1024 * 1024)%Z /\
  demo_upload receipt_png = Some "/uploads/receipt.png"%string /\
  run_view demo_upload "42" view0
    [VSelect "eSewa"; VChoose (Some receipt_png); VBack; VSelect "Khalti"; VProcess] =
  [{| call_order := "42"; call_url := "/uploads/receipt.png";
      call_method := Some "Khalti"%string; call_file := receipt_png |}].
Proof.
  split; [vm_compute; discriminate|]. split; [reflexivity|].
  apply back_keeps_screenshot; [vm_compute; discriminate | reflexivity].
Defined.

(** X16: [toggleExpand] expands the clicked order unless it is the
    expanded one, which it collapses; clicking twice restores a collapsed
    list or the clicked row's expansion. *)
Theorem toggleExpand_spec e orderId :
  (toggleExpand e orderId = Some orderId <-> e <> Some orderId) /\
  (toggleExpand e orderId = None <-> e = Some orderId) /\
  (e = None \/ e = Some orderId -> toggleExpand (toggleExpand e orderId) orderId = e).
Proof.
  unfold toggleExpand. destruct e as [x|]; [destruct (String.eqb_spec x orderId) as [->|Hne]|].
  - split; [split; congruence|]. split; [split; reflexivity|].
    intros _. reflexivity.
  - split; [split; [intros _; congruence | reflexivity]|].
    split; [split; congruence|].
    intros [H|H]; congruence.
  - split; [split; [intros _; discriminate | reflexivity]|].
    split; [split; discriminate|]. intros _. rewrite String.eqb_refl. reflexivity.
Qed.
